(** * Abwaermenutzung: the heat-pump script [main.py]

    [main.py] is a straight-line client of a process-simulation library: it
    creates a network, five components and five connections, registers the
    connections, fixes nine parameters, asks the library for a design solve,
    prints the results and prints one derived number, the COP.

    The embedding follows the script statement by statement.  Python objects
    live in a heap ([State]) and the script's variables are handles into it,
    so that a [set_attr] made after [add_conns] is seen through the network,
    as it is in Python.  The numeric engine behind [solve] is not part of the
    repository: what a solve stores, what it writes while it runs and how it
    ends are a parameter ([Library]) of everything below. *)

From Stdlib Require Import Floats ZArith Lia.
From stdpp Require Import gmap strings list fin_maps.

#[local] Set Warnings "-inexact-float".

(** ** Python values and exceptions *)

(** The values the script passes as keyword arguments: numbers ([0.98],
    [-1000], [20], ...) and one dict ([{'R134a': 1}]).  Python's [int] and
    [float] literals are both read as binary64 floats: every integer the
    script writes is exactly representable, and [/] converts to float
    anyway. *)
Inductive Value :=
| Num (x : float)
| Dict (d : gmap string float).

(** The four failure classes of a solve (spec, section 7). *)
Inductive SolveError :=
| ConfigurationError
| WellPosednessError
| ConvergenceError
| PropertyDomainError.

(** What a run can end in: Python's [ZeroDivisionError], an error raised by
    the library's solve, and [NameError] for a handle that names no object
    (the script creates every object it uses, so it never arises there). *)
Inductive Exception :=
| ZeroDivisionError
| NameError
| LibraryError (e : SolveError).

(** ** The objects of the library *)

Inductive Kind := CycleCloser | Compressor | Valve | SimpleHeatExchanger.

(** [CycleCloser('cycle closer')] and the like: a kind, a label, and the
    attributes given by [set_attr] or filled in by a solve. *)
Record Component := mkComponent {
  kind : Kind;
  comp_label : string;
  comp_attrs : gmap string Value
}.

(** [Connection(source, 'out1', target, 'in1', label='1')]: the two
    endpoints are references to component objects. *)
Record Connection := mkConnection {
  source : nat;
  source_id : string;
  target : nat;
  target_id : string;
  label : string;
  conn_attrs : gmap string Value
}.

(** [Network()]: its unit defaults and the connections added to it, by
    reference and in the order they were added. *)
Record Network := mkNetwork {
  units : gmap string string;
  conns : list nat
}.

(** What the program writes, in order: the report of [print_results] (its
    layout is the library's; the model keeps what it reports on), the lines
    of [print(f'...{value}')], and the lines the library writes on its own
    during a solve (iteration progress, warnings). *)
Inductive Output :=
| ResultsTable (nw : Network) (cs : list Connection) (os : list Component)
| FString (text : string) (value : float)
| SolverLine (text : string).

Record State := mkState {
  components : list Component;
  connections : list Connection;
  networks : list Network;
  stdout : list Output
}.

Definition empty_state : State := mkState [] [] [] [].

(** ** The program monad: state and exceptions *)

Inductive Result (A : Type) :=
| Ok (a : A) (st : State)
| Raise (e : Exception) (st : State).
Arguments Ok {A} a st.
Arguments Raise {A} e st.

Definition M (A : Type) : Type := State -> Result A.

Definition ret {A} (a : A) : M A := fun st => Ok a st.

Definition bind {A B} (m : M A) (k : A -> M B) : M B :=
  fun st => match m st with
            | Ok a st' => k a st'
            | Raise e st' => Raise e st'
            end.

Definition raise {A} (e : Exception) : M A := fun st => Raise e st.

Notation "x <- c ;; k" := (bind c (fun x => k))
  (at level 100, c at next level, right associativity).
Notation "c ;; k" := (bind c (fun _ => k))
  (at level 100, right associativity).

(** The state a run ends in, whether it returned or raised. *)
Definition final_state {A} (r : Result A) : State :=
  match r with Ok _ st => st | Raise _ st => st end.

(** ** The library calls the script makes *)

Definition set_comp_attrs (f : gmap string Value -> gmap string Value)
    (c : Component) : Component :=
  mkComponent (kind c) (comp_label c) (f (comp_attrs c)).

Definition set_conn_attrs (f : gmap string Value -> gmap string Value)
    (c : Connection) : Connection :=
  mkConnection (source c) (source_id c) (target c) (target_id c) (label c)
    (f (conn_attrs c)).

(** Keyword arguments update the attributes from left to right. *)
Definition update_attrs (kwargs : list (string * Value))
    (attrs : gmap string Value) : gmap string Value :=
  foldl (fun m kv => <[kv.1 := kv.2]> m) attrs kwargs.

(** [Network()] *)
Definition new_network : M nat := fun st =>
  Ok (length (networks st))
     (mkState (components st) (connections st)
        (networks st ++ [mkNetwork ∅ []]) (stdout st)).

(** [nw.units.set_defaults(temperature="degC", ...)] *)
Definition set_defaults (nw : nat) (kwargs : list (string * string)) : M unit :=
  fun st =>
    match networks st !! nw with
    | None => Raise NameError st
    | Some n =>
        let n' := mkNetwork (foldl (fun m kv => <[kv.1 := kv.2]> m) (units n) kwargs)
                    (conns n) in
        Ok tt (mkState (components st) (connections st)
                 (<[nw := n']> (networks st)) (stdout st))
    end.

(** [CycleCloser(label)], [SimpleHeatExchanger(label)], [Valve(label)],
    [Compressor(label)] *)
Definition new_component (k : Kind) (lbl : string) : M nat := fun st =>
  Ok (length (components st))
     (mkState (components st ++ [mkComponent k lbl ∅]) (connections st)
        (networks st) (stdout st)).

(** [Connection(src, src_id, tgt, tgt_id, label=lbl)] *)
Definition new_connection (src : nat) (src_id : string) (tgt : nat)
    (tgt_id : string) (lbl : string) : M nat := fun st =>
  Ok (length (connections st))
     (mkState (components st)
        (connections st ++ [mkConnection src src_id tgt tgt_id lbl ∅])
        (networks st) (stdout st)).

(** [nw.add_conns(c, ...)] *)
Definition add_conns (nw : nat) (cs : list nat) : M unit := fun st =>
  match networks st !! nw with
  | None => Raise NameError st
  | Some n =>
      Ok tt (mkState (components st) (connections st)
               (<[nw := mkNetwork (units n) (conns n ++ cs)]> (networks st))
               (stdout st))
  end.

(** [component.set_attr(name=value, ...)] *)
Definition comp_set_attr (c : nat) (kwargs : list (string * Value)) : M unit :=
  fun st =>
    match components st !! c with
    | None => Raise NameError st
    | Some o =>
        Ok tt (mkState (<[c := set_comp_attrs (update_attrs kwargs) o]> (components st))
                 (connections st) (networks st) (stdout st))
    end.

(** [connection.set_attr(name=value, ...)] *)
Definition conn_set_attr (c : nat) (kwargs : list (string * Value)) : M unit :=
  fun st =>
    match connections st !! c with
    | None => Raise NameError st
    | Some o =>
        Ok tt (mkState (components st)
                 (<[c := set_conn_attrs (update_attrs kwargs) o]> (connections st))
                 (networks st) (stdout st))
    end.

(** ** The solver, a parameter

    The engine behind [nw.solve] is the library's.  A solve is given the
    whole heap, the network and the mode.  What it leaves behind is, per
    connection and per component, the values it stored under their
    attribute names, and the lines it wrote while it ran.  It returns, or
    it raises one of the four error classes; what it had stored and written
    by then stays. *)
Record Solution := mkSolution {
  stream_values : nat -> gmap string Value;
  operation_values : nat -> gmap string Value;
  solver_lines : list string
}.

Inductive SolveOutcome :=
| Solved (sol : Solution)
| Failed (e : SolveError) (partial : Solution).

Record Library := mkLibrary {
  lib_solve : State -> nat -> string -> SolveOutcome
}.

(** The values of a solve are stored into the objects, over what was
    there, and its lines are written. *)
Definition write_back (sol : Solution) (st : State) : State :=
  mkState
    (imap (fun i c => set_comp_attrs (fun a => operation_values sol i ∪ a) c)
          (components st))
    (imap (fun i c => set_conn_attrs (fun a => stream_values sol i ∪ a) c)
          (connections st))
    (networks st) (stdout st ++ (SolverLine <$> solver_lines sol)).

(** [nw.solve(mode=...)]: the script has no handler around the call, an
    error of the library ends the program. *)
Definition solve (lib : Library) (nw : nat) (mode : string) : M unit :=
  fun st =>
    match networks st !! nw with
    | None => Raise NameError st
    | Some _ =>
        match lib_solve lib st nw mode with
        | Solved sol => Ok tt (write_back sol st)
        | Failed e partial => Raise (LibraryError e) (write_back partial st)
        end
    end.

(** One more item on standard output. *)
Definition emit (o : Output) (st : State) : State :=
  mkState (components st) (connections st) (networks st) (stdout st ++ [o]).

(** [nw.print_results()] *)
Definition print_results (nw : nat) : M unit := fun st =>
  match networks st !! nw with
  | None => Raise NameError st
  | Some n => Ok tt (emit (ResultsTable n (connections st) (components st)) st)
  end.

(** [component.<name>.val]: the number stored under [name]; a parameter
    that was neither set nor solved reads as NaN. *)
Definition attr_val (o : Component) (name : string) : float :=
  match comp_attrs o !! name with
  | Some (Num x) => x
  | _ => nan
  end.

Definition val (c : nat) (name : string) : M float := fun st =>
  match components st !! c with
  | None => Raise NameError st
  | Some o => Ok (attr_val o name) st
  end.

(** Python's [a / b] on numbers: [ZeroDivisionError] when the divisor
    compares equal to zero (either sign), the IEEE quotient otherwise. *)
Definition truediv (a b : float) : M float :=
  if PrimFloat.eqb b 0 then raise ZeroDivisionError else ret (PrimFloat.div a b).

(** [print(f'text{value}')] *)
Definition print_f (text : string) (value : float) : M unit := fun st =>
  Ok tt (emit (FString text value) st).

(** ** The script *)

(** The script's variables. *)
Record Handles := mkHandles {
  my_plant : nat;
  cc : nat; co : nat; ev : nat; va : nat; cp : nat;
  c1 : nat; c2 : nat; c3 : nat; c4 : nat; c0 : nat
}.

(** Lines 8-33: the network, the components, the connections. *)
Definition build : M Handles :=
  my_plant <- new_network ;;
  set_defaults my_plant
    [("temperature", "degC"); ("pressure", "bar"); ("enthalpy", "kJ/kg");
     ("heat", "kW"); ("power", "kW")] ;;
  cc <- new_component CycleCloser "cycle closer" ;;
  co <- new_component SimpleHeatExchanger "condensor" ;;
  ev <- new_component SimpleHeatExchanger "evaporater" ;;
  va <- new_component Valve "expansion valve" ;;
  cp <- new_component Compressor "compressor" ;;
  c1 <- new_connection cc "out1" ev "in1" "1" ;;
  c2 <- new_connection ev "out1" cp "in1" "2" ;;
  c3 <- new_connection cp "out1" co "in1" "3" ;;
  c4 <- new_connection co "out1" va "in1" "4" ;;
  c0 <- new_connection va "out1" cc "in1" "0" ;;
  add_conns my_plant [c0; c1; c2; c3; c4] ;;
  ret (mkHandles my_plant cc co ev va cp c1 c2 c3 c4 c0).

(** Lines 36-41: the component and connection parameters.  [duty] is the
    condenser's [Q], [-1000] in the script. *)
Definition configure (duty : float) (h : Handles) : M unit :=
  comp_set_attr (co h) [("pr", Num 0.98); ("Q", Num duty)] ;;
  comp_set_attr (ev h) [("pr", Num 0.98)] ;;
  comp_set_attr (cp h) [("eta_s", Num 0.85)] ;;
  conn_set_attr (c2 h) [("T", Num 20); ("x", Num 1); ("fluid", Dict {["R134a" := 1%float]})] ;;
  conn_set_attr (c4 h) [("T", Num 80); ("x", Num 0)].

(** Line 46: [print(f'COP = {abs(co.Q.val) / cp.P.val}')] *)
Definition print_cop (h : Handles) : M unit :=
  q <- val (co h) "Q" ;;
  p <- val (cp h) "P" ;;
  cop <- truediv (PrimFloat.abs q) p ;;
  print_f "COP = " cop.

(** Lines 43-46. *)
Definition solve_and_report (lib : Library) (h : Handles) : M unit :=
  solve lib (my_plant h) "design" ;;
  print_results (my_plant h) ;;
  print_cop h.

Definition script (duty : float) (lib : Library) : M unit :=
  h <- build ;;
  configure duty h ;;
  solve_and_report lib h.

(** [main.py], and one run of it. *)
Definition main (lib : Library) : M unit := script (-1000) lib.

Definition run (lib : Library) : Result unit := main lib empty_state.

(** The state a run of [main.py] is in after line 33, and after line 41
    with [duty] for the condenser's [Q]. *)
Definition handles : Handles := mkHandles 0 0 1 2 3 4 0 1 2 3 4.

Definition built : State := final_state (build empty_state).

Definition design_state (duty : float) : State :=
  final_state (configure duty handles built).

Arguments built : simpl never.
Arguments design_state : simpl never.

(** ** What a solve may not touch: the topology

    The components with kind and label, the connections with label and
    port bindings, and the connections each network holds. *)
Record Topology := mkTopology {
  topo_components : list (Kind * string);
  topo_connections : list (string * (nat * string) * (nat * string));
  topo_networks : list (list nat)
}.

Definition port_binding (c : Connection) : string * (nat * string) * (nat * string) :=
  (label c, (source c, source_id c), (target c, target_id c)).

Definition topology (st : State) : Topology :=
  mkTopology ((fun c => (kind c, comp_label c)) <$> components st)
             (port_binding <$> connections st)
             (conns <$> networks st).

(** ** The network graph (spec, sections 3 and 4.1) *)

Module Graph.

#[global] Instance Kind_eq_dec : EqDecision Kind.
Proof. solve_decision. Defined.

(** The streams of a network: the connections it holds, dereferenced. *)
Definition edges (st : State) (n : Network) : list Connection :=
  omap (fun c => connections st !! c) (conns n).

(** Its unit operations: the components its connections start or end at. *)
Definition nodes (st : State) (n : Network) : list nat :=
  remove_dups (flat_map (fun e => [source e; target e]) (edges st n)).

Definition kind_of (st : State) (c : nat) : option Kind :=
  kind <$> components st !! c.

(** Modelled from the spec: the port table of the library's component
    classes, which the repository does not contain.  Section 3 gives every
    variant the script uses one inlet and one outlet; the script names them
    ['in1'] and ['out1']. *)
Definition inlets (k : Kind) : list string :=
  match k with
  | CycleCloser => ["in1"]
  | Compressor => ["in1"]
  | Valve => ["in1"]
  | SimpleHeatExchanger => ["in1"]
  end.

(** Modelled from the spec: the outlets, as for [inlets]. *)
Definition outlets (k : Kind) : list string :=
  match k with
  | CycleCloser => ["out1"]
  | Compressor => ["out1"]
  | Valve => ["out1"]
  | SimpleHeatExchanger => ["out1"]
  end.

Inductive Direction := Inlet | Outlet.

#[global] Instance Direction_eq_dec : EqDecision Direction.
Proof. solve_decision. Defined.

Definition Port : Type := nat * Direction * string.

Definition ports_of (st : State) (c : nat) : list Port :=
  match kind_of st c with
  | Some k => map (fun p => (c, Inlet, p)) (inlets k)
              ++ map (fun p => (c, Outlet, p)) (outlets k)
  | None => []
  end.

Definition ports (st : State) (n : Network) : list Port :=
  flat_map (ports_of st) (nodes st n).

(** The streams attached to a port. *)
Definition attached (es : list Connection) (p : Port) : list Connection :=
  match p with
  | (c, Inlet, name) =>
      filter (fun e => target e = c /\ target_id e = name) es
  | (c, Outlet, name) =>
      filter (fun e => source e = c /\ source_id e = name) es
  end.

Definition open_ports (st : State) (n : Network) : list Port :=
  filter (fun p => attached (edges st n) p = []) (ports st n).

(** Undirected reachability over the streams. *)
Definition neighbours (es : list Connection) (c : nat) : list nat :=
  flat_map (fun e => (if decide (source e = c) then [target e] else [])
                     ++ (if decide (target e = c) then [source e] else [])) es.

Fixpoint reachable (fuel : nat) (es : list Connection) (seen : list nat) : list nat :=
  match fuel with
  | 0 => seen
  | S fuel' =>
      reachable fuel' es (remove_dups (seen ++ flat_map (neighbours es) seen))
  end.

Fixpoint count_components (fuel : nat) (es : list Connection) (todo : list nat) : nat :=
  match fuel with
  | 0 => 0
  | S fuel' =>
      match todo with
      | [] => 0
      | c :: _ =>
          let comp := reachable (length todo) es [c] in
          S (count_components fuel' es (filter (fun d => d ∉ comp) todo))
      end
  end.

Definition connected_components (st : State) (n : Network) : nat :=
  count_components (length (nodes st n)) (edges st n) (nodes st n).

Inductive TopologyError :=
| OpenPortError (unconnected : list Port)
| DisconnectedGraphError.

(** Modelled from the spec: [validateTopology] (section 4.1) is the
    library's and missing from the repository.  It "fails with
    OpenPortError listing every unconnected port; fails with
    DisconnectedGraphError if more than one connected component exists". *)
Definition validateTopology (st : State) (n : Network) : option TopologyError :=
  match open_ports st n with
  | [] => if decide (1 < connected_components st n)
          then Some DisconnectedGraphError else None
  | unconnected => Some (OpenPortError unconnected)
  end.

Definition is_closer (st : State) (c : nat) : bool :=
  bool_decide (kind_of st c = Some CycleCloser).

(** The traversal the cycle closer exists for: from a component, follow
    the stream leaving it, and stop on arriving at a cycle closer. *)
Fixpoint chain_from (fuel : nat) (st : State) (es : list Connection) (c : nat)
    : list Connection :=
  match fuel with
  | 0 => []
  | S fuel' =>
      match filter (fun e => source e = c) es with
      | [] => []
      | e :: _ =>
          e :: (if is_closer st (target e) then []
                else chain_from fuel' st es (target e))
      end
  end.

(** [e'] continues [e]: it leaves the operation [e] enters, unless that
    operation is a cycle closer, where a traversal ends. *)
Definition continues (st : State) (e e' : Connection) : Prop :=
  target e = source e' /\ is_closer st (target e) = false.

#[global] Instance continues_dec st e e' : Decision (continues st e e').
Proof. unfold continues. apply _. Defined.

(** The place of a stream in a traversal (its length when absent). *)
Definition position (l : list Connection) (e : Connection) : nat :=
  match list_find (fun e' => label e' = label e) l with
  | Some (i, _) => i
  | None => length l
  end.

End Graph.

(** ** Degrees of freedom (spec, sections 3, 4.2 and 4.3) *)

Module Dof.


(** Modelled from the spec: an operation with one inlet and one outlet
    keeps "the same fluid composition and mass flow in/out" (section 4.2).
    A quantity [v] of the streams (the mass flow, the mass fraction of a
    fluid) is conserved across the operation [c] when it is the same on
    every stream of the network entering [c] and every stream leaving it. *)
Definition conserved {A} (st : State) (n : Network) (v : nat -> A) (c : nat) : Prop :=
  forall i o, i ∈ conns n -> o ∈ conns n ->
    target <$> connections st !! i = Some c ->
    source <$> connections st !! o = Some c ->
    v i = v o.

















End Dof.

(** ** Reading a run *)

(** The network object of the script, as a state holds it. *)
Definition plant (st : State) : Network :=
  default (mkNetwork ∅ []) (networks st !! my_plant handles).

(** [component.<name>.val] as a pure reading of a state. *)
Definition read_val (st : State) (c : nat) (name : string) : float :=
  match components st !! c with
  | Some o => attr_val o name
  | None => nan
  end.

(** The state after [print_results]. *)
Definition reported (st : State) : State :=
  emit (ResultsTable (plant st) (connections st) (components st)) st.

(** The number line 46 prints: [abs(co.Q.val) / cp.P.val]. *)
Definition cop (st : State) : float :=
  PrimFloat.div (PrimFloat.abs (read_val st (co handles) "Q"))
                (read_val st (cp handles) "P").

(** The request the script's one [solve] call makes of the library. *)
Definition design_request (lib : Library) (duty : float) : SolveOutcome :=
  lib_solve lib (design_state duty) (my_plant handles) "design".

(** Lines 43-46 from the state [st], by cases on the library's answer. *)
Definition report_of (answer : SolveOutcome) (st : State) : Result unit :=
  match answer with
  | Failed e partial => Raise (LibraryError e) (write_back partial st)
  | Solved sol =>
      let solved := write_back sol st in
      if PrimFloat.eqb (read_val solved (cp handles) "P") 0
      then Raise ZeroDivisionError (reported solved)
      else Ok tt (emit (FString "COP = " (cop solved)) (reported solved))
  end.

(** ** Sample answers of a solver *)

(** A solve that stores [power] as the compressor's [P] and nothing else,
    and writes nothing. *)
Definition power_solution (power : float) : Solution :=
  mkSolution (fun _ => ∅)
    (fun c => if decide (c = cp handles) then {["P" := Num power]} else ∅)
    [].

Definition answer_with_power (power : float) : SolveOutcome :=
  Solved (power_solution power).

(** The cycle run backwards: heat taken up in the condenser, power
    delivered by the compressor. *)
Definition reversed_cycle : Library :=
  mkLibrary (fun _ _ _ => answer_with_power (-250)).

(** A solve that leaves the compressor without power. *)
Definition stalled_compressor : Library :=
  mkLibrary (fun _ _ _ => answer_with_power 0).

(** A solve that returns a compressor power of 250 kW. *)
Definition steady_library : Library :=
  mkLibrary (fun _ _ _ => answer_with_power 250).

(** A solve that leaves the compressor's power undefined (NaN). *)
Definition undefined_power : Library :=
  mkLibrary (fun _ _ _ => answer_with_power nan).

(** A computation that leaves the topology as it found it, whether it
    returns or raises. *)
Definition keeps_topology {A} (m : M A) : Prop :=
  forall st, topology (final_state (m st)) = topology st.

(** ** Lines 36-41 as a list of statements *)

(** One [set_attr] statement: the object addressed, a component or a
    connection, and the keyword arguments. *)
Inductive SetAttr :=
| OnComponent (c : nat) (kwargs : list (string * Value))
| OnConnection (c : nat) (kwargs : list (string * Value)).

Definition set_attr (s : SetAttr) : M unit :=
  match s with
  | OnComponent c kwargs => comp_set_attr c kwargs
  | OnConnection c kwargs => conn_set_attr c kwargs
  end.

(** The object a statement addresses. *)
Definition addressed (s : SetAttr) : nat + nat :=
  match s with
  | OnComponent c _ => inl c
  | OnConnection c _ => inr c
  end.

(** The statement's variable is bound to an object of the state. *)
Definition bound (st : State) (s : SetAttr) : Prop :=
  match s with
  | OnComponent c _ => c < length (components st)
  | OnConnection c _ => c < length (connections st)
  end.

(** The five statements of lines 36-41, in the order of the script. *)
Definition statements (duty : float) (h : Handles) : list SetAttr :=
  [OnComponent (co h) [("pr", Num 0.98); ("Q", Num duty)];
   OnComponent (ev h) [("pr", Num 0.98)];
   OnComponent (cp h) [("eta_s", Num 0.85)];
   OnConnection (c2 h) [("T", Num 20); ("x", Num 1); ("fluid", Dict {["R134a" := 1%float]})];
   OnConnection (c4 h) [("T", Num 80); ("x", Num 0)]].

(** Statements run one after the other. *)
Fixpoint in_order (l : list SetAttr) : M unit :=
  match l with
  | [] => ret tt
  | s :: l => set_attr s ;; in_order l
  end.

(** A computation that leaves the network objects as it found them:
    their unit defaults and their connection lists. *)
Definition keeps_networks {A} (m : M A) : Prop :=
  forall st, networks (final_state (m st)) = networks st.

(** The unit defaults of lines 11-13. *)
Definition unit_defaults : gmap string string :=
  list_to_map [("temperature", "degC"); ("pressure", "bar"); ("enthalpy", "kJ/kg");
               ("heat", "kW"); ("power", "kW")].

(** * Properties *)

(** ** Running the script *)

Lemma build_ok : build empty_state = Ok handles built.
Proof. vm_compute. reflexivity. Qed.

Lemma configure_ok duty : configure duty handles built = Ok tt (design_state duty).
Proof. vm_compute. reflexivity. Qed.

Lemma script_unfold duty lib :
  script duty lib empty_state = solve_and_report lib handles (design_state duty).
Proof.
  unfold script, bind. rewrite build_ok.
  change (match configure duty handles built with
          | Ok _ st' => solve_and_report lib handles st'
          | Raise e st' => Raise e st'
          end = solve_and_report lib handles (design_state duty)).
  now rewrite configure_ok.
Qed.

Lemma design_network duty :
  networks (design_state duty) !! my_plant handles = Some (plant built).
Proof. vm_compute. reflexivity. Qed.

Lemma design_condenser duty : is_Some (components (design_state duty) !! co handles).
Proof. vm_compute. eauto. Qed.

Lemma design_compressor duty : is_Some (components (design_state duty) !! cp handles).
Proof. vm_compute. eauto. Qed.

Lemma print_results_ok nw n st :
  networks st !! nw = Some n ->
  print_results nw st = Ok tt (emit (ResultsTable n (connections st) (components st)) st).
Proof. intros Hn. unfold print_results. now rewrite Hn. Qed.

Lemma val_read c name st :
  is_Some (components st !! c) -> val c name st = Ok (read_val st c name) st.
Proof. intros [o Ho]. unfold val, read_val. now rewrite Ho. Qed.

Lemma write_back_components sol st c :
  is_Some (components st !! c) -> is_Some (components (write_back sol st) !! c).
Proof.
  intros [o Ho]. unfold write_back; simpl.
  rewrite list_lookup_imap, Ho. simpl. eauto.
Qed.

(** Lines 43-46, executed symbolically. *)
Lemma solve_and_report_cases lib st :
  is_Some (networks st !! my_plant handles) ->
  is_Some (components st !! co handles) ->
  is_Some (components st !! cp handles) ->
  solve_and_report lib handles st
  = report_of (lib_solve lib st (my_plant handles) "design") st.
Proof.
  intros [n Hn] Hq Hp. unfold solve_and_report, report_of, bind, solve.
  rewrite Hn.
  destruct (lib_solve lib st (my_plant handles) "design") as [sol|e partial];
    [|reflexivity].
  assert (Hn' : networks (write_back sol st) !! my_plant handles = Some n) by exact Hn.
  rewrite (print_results_ok _ _ _ Hn').
  unfold print_cop, bind.
  set (solved := write_back sol st) in *.
  assert (Hplant : plant solved = n) by (unfold plant; now rewrite Hn').
  assert (Hrep : emit (ResultsTable n (connections solved) (components solved)) solved
                 = reported solved) by (unfold reported; now rewrite Hplant).
  rewrite Hrep.
  assert (Hq' : is_Some (components (reported solved) !! co handles))
    by (apply (write_back_components sol st), Hq).
  assert (Hp' : is_Some (components (reported solved) !! cp handles))
    by (apply (write_back_components sol st), Hp).
  rewrite (val_read _ _ _ Hq'), (val_read _ _ _ Hp').
  change (read_val (reported solved)) with (read_val solved).
  unfold truediv, raise, ret, print_f, cop.
  destruct (PrimFloat.eqb (read_val solved (cp handles) "P") 0); reflexivity.
Qed.

Lemma script_cases duty lib :
  script duty lib empty_state = report_of (design_request lib duty) (design_state duty).
Proof.
  rewrite script_unfold. apply solve_and_report_cases.
  - rewrite design_network. eauto.
  - apply design_condenser.
  - apply design_compressor.
Qed.

Lemma run_cases lib :
  run lib = report_of (design_request lib (-1000)) (design_state (-1000)).
Proof. unfold run, main. exact (script_cases (-1000) lib). Qed.

Lemma stdout_emit o st : stdout (emit o st) = stdout st ++ [o].
Proof. reflexivity. Qed.

Lemma design_stdout duty : stdout (design_state duty) = [].
Proof. vm_compute. reflexivity. Qed.

(** ** The topology is fixed by construction *)

Lemma topology_emit o st : topology (emit o st) = topology st.
Proof. reflexivity. Qed.

Lemma topology_write_back sol st : topology (write_back sol st) = topology st.
Proof.
  unfold topology, write_back; simpl. f_equal.
  - rewrite fmap_imap. rewrite <- imap_const. now apply imap_ext.
  - rewrite fmap_imap. rewrite <- imap_const. now apply imap_ext.
Qed.

Lemma ret_keeps {A} (a : A) : keeps_topology (ret a).
Proof. now intros st. Qed.

Lemma raise_keeps {A} e : keeps_topology (@raise A e).
Proof. now intros st. Qed.

Lemma bind_keeps {A B} (m : M A) (k : A -> M B) :
  keeps_topology m -> (forall a, keeps_topology (k a)) -> keeps_topology (bind m k).
Proof.
  intros Hm Hk st. unfold bind. specialize (Hm st).
  destruct (m st) as [a st'|e st']; simpl in Hm.
  - now rewrite Hk.
  - exact Hm.
Qed.

Lemma comp_set_attr_keeps c kwargs : keeps_topology (comp_set_attr c kwargs).
Proof.
  intros st. unfold comp_set_attr.
  destruct (components st !! c) as [o|] eqn:Ho; [|reflexivity].
  unfold topology; simpl. f_equal.
  rewrite list_fmap_insert. apply list_insert_id.
  now rewrite list_lookup_fmap, Ho.
Qed.

Lemma conn_set_attr_keeps c kwargs : keeps_topology (conn_set_attr c kwargs).
Proof.
  intros st. unfold conn_set_attr.
  destruct (connections st !! c) as [o|] eqn:Ho; [|reflexivity].
  unfold topology; simpl. f_equal.
  rewrite list_fmap_insert. apply list_insert_id.
  now rewrite list_lookup_fmap, Ho.
Qed.

Lemma solve_keeps lib nw mode : keeps_topology (solve lib nw mode).
Proof.
  intros st. unfold solve.
  destruct (networks st !! nw); [|reflexivity].
  destruct (lib_solve lib st nw mode); apply topology_write_back.
Qed.

Lemma print_results_keeps nw : keeps_topology (print_results nw).
Proof. intros st. unfold print_results. now destruct (networks st !! nw). Qed.

Lemma val_keeps c name : keeps_topology (val c name).
Proof. intros st. unfold val. now destruct (components st !! c). Qed.

Lemma truediv_keeps a b : keeps_topology (truediv a b).
Proof. intros st. unfold truediv. now destruct (PrimFloat.eqb b 0). Qed.

Lemma print_f_keeps text v : keeps_topology (print_f text v).
Proof. now intros st. Qed.

Lemma configure_keeps duty h : keeps_topology (configure duty h).
Proof.
  unfold configure.
  repeat (apply bind_keeps; [|intros _]);
    first [apply comp_set_attr_keeps | apply conn_set_attr_keeps].
Qed.

Lemma print_cop_keeps h : keeps_topology (print_cop h).
Proof.
  unfold print_cop.
  apply bind_keeps; [apply val_keeps|intros q].
  apply bind_keeps; [apply val_keeps|intros p].
  apply bind_keeps; [apply truediv_keeps|intros v].
  apply print_f_keeps.
Qed.

Lemma solve_and_report_keeps lib h : keeps_topology (solve_and_report lib h).
Proof.
  unfold solve_and_report.
  apply bind_keeps; [apply solve_keeps|intros _].
  apply bind_keeps; [apply print_results_keeps|intros _].
  apply print_cop_keeps.
Qed.

(** ** The claims on the script *)

(** C10: after [add_conns] (line 33) no statement of the script alters the
    topology.  The [set_attr] calls of lines 36-41 and lines 43-46 (solve,
    report, COP) keep the components, the connections with their port
    bindings and the network's list of connections, from any state; so the
    state handed to the solver and the state any run ends in have the
    topology of the state after line 33. *)
Theorem topology_fixed_after_add_conns (lib : Library) :
  keeps_topology (configure (-1000) handles)
  /\ keeps_topology (solve_and_report lib handles)
  /\ topology (design_state (-1000)) = topology built
  /\ topology (final_state (run lib)) = topology built.
Proof.
  assert (Hdesign : topology (design_state (-1000)) = topology built)
    by apply (configure_keeps (-1000) handles built).
  split; [apply configure_keeps|].
  split; [apply solve_and_report_keeps|].
  split; [exact Hdesign|].
  unfold run, main. rewrite script_unfold.
  now rewrite (solve_and_report_keeps lib handles (design_state (-1000))).
Qed.

(** C8: line 46 divides [abs(co.Q.val)] by [cp.P.val] with no guard.  When
    the solve returns, the run completes with the line [COP = ...] exactly
    when the solved compressor power is not zero; when it is zero the run
    ends in [ZeroDivisionError] after the report has been printed and
    before any COP line. *)
Theorem cop_division_unguarded (lib : Library) (sol : Solution) :
  design_request lib (-1000) = Solved sol ->
  let solved := write_back sol (design_state (-1000)) in
  (PrimFloat.eqb (read_val solved (cp handles) "P") 0 = true ->
   run lib = Raise ZeroDivisionError (reported solved))
  /\ (PrimFloat.eqb (read_val solved (cp handles) "P") 0 = false ->
      run lib = Ok tt (emit (FString "COP = " (cop solved)) (reported solved))).
Proof.
  intros Hsol solved. rewrite run_cases, Hsol. unfold report_of. fold solved.
  split; intros ->; reflexivity.
Qed.

Lemma cop_division_unguarded_witness :
  design_request stalled_compressor (-1000) = Solved (power_solution 0)
  /\ run stalled_compressor
     = Raise ZeroDivisionError
         (reported (write_back (power_solution 0) (design_state (-1000)))).
Proof.
  split; [reflexivity|].
  apply (cop_division_unguarded stalled_compressor (power_solution 0)).
  - reflexivity.
  - vm_compute. reflexivity.
Defined.

(** ** The graph the script builds *)

Lemma built_edges :
  Graph.edges built (plant built)
  = omap (fun c => connections built !! c)
      [c0 handles; c1 handles; c2 handles; c3 handles; c4 handles].
Proof. vm_compute. reflexivity. Qed.

Lemma built_chain :
  Graph.chain_from 5 built (Graph.edges built (plant built)) (cc handles)
  = omap (fun c => connections built !! c)
      [c1 handles; c2 handles; c3 handles; c4 handles; c0 handles].
Proof. vm_compute. reflexivity. Qed.

(** C4: the graph of the five connections, as registered on line 33.  Its
    operations are the five components; each has one inlet ['in1'] and one
    outlet ['out1'], and every such port has exactly one connection attached;
    the graph is one connected component; [validateTopology] reports
    nothing.  From the cycle closer the streams form the chain 1, 2, 3, 4, 0:
    it leaves the closer's outlet, ends at the closer's inlet, holds every
    stream of the network once, and every stream that continues another
    comes later in it, so the traversal cut at the closer has no cycle. *)
Theorem script_topology_valid :
  let g := plant built in
  let es := Graph.edges built g in
  let chain := Graph.chain_from 5 built es (cc handles) in
  Graph.nodes built g = [cc handles; ev handles; cp handles; co handles; va handles]
  /\ length (components built) = 5
  /\ (forall c, c ∈ Graph.nodes built g ->
        Graph.ports_of built c = [(c, Graph.Inlet, "in1"); (c, Graph.Outlet, "out1")])
  /\ Forall (fun p => length (Graph.attached es p) = 1) (Graph.ports built g)
  /\ Graph.connected_components built g = 1
  /\ Graph.validateTopology built g = None
  /\ label <$> chain = ["1"; "2"; "3"; "4"; "0"]
  /\ chain ≡ₚ es
  /\ (source <$> head chain) = Some (cc handles)
  /\ (target <$> last chain) = Some (cc handles)
  /\ (forall e e', e ∈ es -> e' ∈ es -> Graph.continues built e e' ->
        Graph.position chain e < Graph.position chain e').
Proof.
  intros g es chain.
  assert (Hnodes : Graph.nodes built g
                   = [cc handles; ev handles; cp handles; co handles; va handles])
    by (vm_compute; reflexivity).
  split; [exact Hnodes|].
  split; [vm_compute; reflexivity|].
  split.
  { intros c Hc. rewrite Hnodes in Hc.
    repeat (apply elem_of_cons in Hc as [->|Hc]; [vm_compute; reflexivity|]).
    now apply elem_of_nil in Hc. }
  split; [apply (bool_decide_unpack _); vm_compute; exact I|].
  split; [vm_compute; reflexivity|].
  split; [vm_compute; reflexivity|].
  split; [vm_compute; reflexivity|].
  split.
  { unfold chain, es, g. rewrite built_chain, built_edges.
    apply omap_Permutation. symmetry.
    exact (Permutation_cons_append
             [c1 handles; c2 handles; c3 handles; c4 handles] (c0 handles)). }
  split; [vm_compute; reflexivity|].
  split; [vm_compute; reflexivity|].
  assert (Hall : Forall (fun e => Forall (fun e' =>
                   Graph.continues built e e' ->
                   Graph.position chain e < Graph.position chain e') es) es)
    by (apply (bool_decide_unpack _); vm_compute; exact I).
  intros e e' He He' Hcont.
  rewrite Forall_forall in Hall. specialize (Hall e He).
  rewrite Forall_forall in Hall. exact (Hall e' He' Hcont).
Qed.

(** ** Counting unknowns and equations *)







(** Why the closer's mass and composition continuity are not counted: on
    the loop the script builds, a quantity conserved across the evaporator,
    the compressor, the condenser and the valve is conserved across the
    cycle closer too. *)
Lemma loop_conservation_closes {A} (duty : float) (v : nat -> A) :
  (forall c, c ∈ Graph.nodes (design_state duty) (plant (design_state duty)) ->
             Graph.is_closer (design_state duty) c = false ->
             Dof.conserved (design_state duty) (plant (design_state duty)) v c) ->
  forall c, Graph.is_closer (design_state duty) c = true ->
            Dof.conserved (design_state duty) (plant (design_state duty)) v c.
Proof.
  intros Hops c Hc.
  assert (Hcc : c = cc handles).
  { unfold Graph.is_closer, Graph.kind_of in Hc. apply bool_decide_eq_true in Hc.
    do 5 (destruct c as [|c]; [first [reflexivity|vm_compute in Hc; discriminate Hc]|]).
    vm_compute in Hc. discriminate Hc. }
  subst c.
  assert (Hstep : forall c i o,
             c ∈ [ev handles; cp handles; co handles; va handles] ->
             i ∈ conns (plant (design_state duty)) ->
             o ∈ conns (plant (design_state duty)) ->
             target <$> connections (design_state duty) !! i = Some c ->
             source <$> connections (design_state duty) !! o = Some c ->
             v i = v o).
  { intros c i o Hin. apply Hops.
    - revert Hin. rewrite !elem_of_cons, elem_of_nil.
      intros [->|[->|[->|[->|[]]]]]; vm_compute; repeat constructor.
    - revert Hin. rewrite !elem_of_cons, elem_of_nil.
      intros [->|[->|[->|[->|[]]]]]; vm_compute; reflexivity. }
  assert (Hconns : conns (plant (design_state duty))
                   = [c0 handles; c1 handles; c2 handles; c3 handles; c4 handles])
    by (vm_compute; reflexivity).
  rewrite Hconns in Hstep.
  assert (H12 : v (c1 handles) = v (c2 handles))
    by (apply (Hstep (ev handles)); vm_compute; repeat constructor).
  assert (H23 : v (c2 handles) = v (c3 handles))
    by (apply (Hstep (cp handles)); vm_compute; repeat constructor).
  assert (H34 : v (c3 handles) = v (c4 handles))
    by (apply (Hstep (co handles)); vm_compute; repeat constructor).
  assert (H40 : v (c4 handles) = v (c0 handles))
    by (apply (Hstep (va handles)); vm_compute; repeat constructor).
  intros i o Hi Ho Hti Hso. rewrite Hconns in Hi, Ho.
  assert (Hi' : i = c0 handles).
  { revert Hi Hti. rewrite !elem_of_cons, elem_of_nil.
    intros [->|[->|[->|[->|[->|[]]]]]] Hti;
      first [reflexivity|vm_compute in Hti; discriminate Hti]. }
  assert (Ho' : o = c1 handles).
  { revert Ho Hso. rewrite !elem_of_cons, elem_of_nil.
    intros [->|[->|[->|[->|[->|[]]]]]] Hso;
      first [reflexivity|vm_compute in Hso; discriminate Hso]. }
  subst i o. congruence.
Qed.


(** * Further properties of the script *)

(** ** Binary64 facts behind line 46 *)

Lemma binary_round_aux_sign prec emax s m e l :
  match binary_round_aux prec emax s m e l with
  | S754_zero s' | S754_infinity s' | S754_finite s' _ _ => s' = s
  | S754_nan => True
  end.
Proof.
  unfold binary_round_aux.
  destruct (shr_fexp prec emax m e l) as [mrs' e'].
  destruct (shr_fexp prec emax _ e' loc_Exact) as [mrs'' e''].
  destruct (shr_m mrs''); try exact I; try reflexivity.
  destruct (Z.leb _ _); reflexivity.
Qed.

Lemma SFdiv_abs_negative a b :
  SFeqb b (S754_zero false) = false ->
  SFltb (SFdiv prec emax (SFabs a) b) (S754_zero false) = true ->
  SFltb b (S754_zero false) = true.
Proof.
  destruct a as [sa|sa| |sa ma ea], b as [[]|[]| |[] mb eb];
    try (intros _; reflexivity); try (intros H; discriminate H);
    try (intros _ H; discriminate H).
  cbn [SFabs SFdiv xorb]. intros _.
  destruct (SFdiv_core_binary prec emax (Z.pos ma) ea (Z.pos mb) eb) as [[mz ez] lz].
  pose proof (binary_round_aux_sign prec emax false mz ez lz) as H.
  destruct (binary_round_aux prec emax false mz ez lz) as [s|s| |s mm ee];
    try (intros H'; discriminate H'); subst s; intros H'; discriminate H'.
Qed.

(** [abs(q) / p] is negative only for negative [p], zero apart. *)
Lemma div_abs_negative q p :
  PrimFloat.eqb p 0 = false ->
  PrimFloat.ltb (PrimFloat.div (PrimFloat.abs q) p) 0 = true ->
  PrimFloat.ltb p 0 = true.
Proof.
  rewrite FloatAxioms.eqb_spec, !FloatAxioms.ltb_spec, FloatAxioms.div_spec,
    FloatAxioms.abs_spec.
  change (Prim2SF 0) with (S754_zero false).
  apply SFdiv_abs_negative.
Qed.

(** A float compares equal to [0] exactly when it is [+0.0] or [-0.0]. *)
Lemma eqb_zero_iff p :
  PrimFloat.eqb p 0 = true <-> exists s, Prim2SF p = S754_zero s.
Proof.
  rewrite FloatAxioms.eqb_spec. change (Prim2SF 0) with (S754_zero false).
  destruct (Prim2SF p) as [s|[]| |[] m e]; cbn; split; try discriminate; eauto;
    intros [s' H]; discriminate H.
Qed.

Lemma div_nan a p : Prim2SF p = S754_nan -> Prim2SF (PrimFloat.div a p) = S754_nan.
Proof.
  intros H. rewrite FloatAxioms.div_spec, H. unfold SF64div. destruct (Prim2SF a); reflexivity.
Qed.

Lemma eqb_nan p : Prim2SF p = S754_nan -> PrimFloat.eqb p 0 = false.
Proof. intros H. rewrite FloatAxioms.eqb_spec, H. reflexivity. Qed.

(** ** What the last line prints *)

Lemma report_ok_inv answer st0 st :
  report_of answer st0 = Ok tt st ->
  exists sol, answer = Solved sol
    /\ PrimFloat.eqb (read_val (write_back sol st0) (cp handles) "P") 0 = false
    /\ st = emit (FString "COP = " (cop (write_back sol st0)))
              (reported (write_back sol st0)).
Proof.
  unfold report_of. destruct answer as [sol|e partial]; [|discriminate].
  destruct (PrimFloat.eqb (read_val (write_back sol st0) (cp handles) "P") 0) eqn:Hp;
    [discriminate|].
  intros Hok. injection Hok as <-. eauto.
Qed.

Lemma stdout_write_back sol st :
  stdout (write_back sol st) = stdout st ++ (SolverLine <$> solver_lines sol).
Proof. reflexivity. Qed.

Lemma solver_line_not_fstring text v (lines : list string) :
  FString text v ∉ SolverLine <$> lines.
Proof. intros Hin. apply list_elem_of_fmap in Hin as (l & Hl & _). discriminate Hl. Qed.

Lemma reported_stdout sol st0 :
  stdout st0 = [] ->
  stdout (reported (write_back sol st0))
  = (SolverLine <$> solver_lines sol)
    ++ [ResultsTable (plant (write_back sol st0)) (connections (write_back sol st0))
          (components (write_back sol st0))].
Proof.
  intros Hout. unfold reported. now rewrite stdout_emit, stdout_write_back, Hout.
Qed.

(** The COP line of a completed run carries the quotient of line 46. *)
Lemma report_cop_line answer st0 st v :
  stdout st0 = [] ->
  report_of answer st0 = Ok tt st ->
  FString "COP = " v ∈ stdout st ->
  exists sol, answer = Solved sol
    /\ PrimFloat.eqb (read_val (write_back sol st0) (cp handles) "P") 0 = false
    /\ v = cop (write_back sol st0).
Proof.
  intros Hout Hok Hin.
  apply report_ok_inv in Hok as (sol & Hsol & Hp & ->).
  exists sol. split; [exact Hsol|]. split; [exact Hp|].
  rewrite stdout_emit, (reported_stdout _ _ Hout) in Hin.
  apply elem_of_app in Hin as [Hin|Hin].
  - apply elem_of_app in Hin as [Hin|Hin].
    + now apply solver_line_not_fstring in Hin.
    + apply list_elem_of_singleton in Hin. discriminate Hin.
  - apply list_elem_of_singleton in Hin. now injection Hin.
Qed.

(** X1: a negative COP comes from a negative compressor power only.  Line 46
    takes [abs] of the duty, so whatever value or sign the condenser's [Q]
    has, a run that prints a negative COP had a solve that returned a
    negative [P]. *)
Theorem negative_cop_needs_negative_power
    (duty : float) (lib : Library) (st : State) (v : float) :
  script duty lib empty_state = Ok tt st ->
  FString "COP = " v ∈ stdout st ->
  PrimFloat.ltb v 0 = true ->
  exists sol, design_request lib duty = Solved sol
    /\ PrimFloat.ltb (read_val (write_back sol (design_state duty)) (cp handles) "P") 0
       = true.
Proof.
  rewrite script_cases. intros Hok Hin Hneg.
  destruct (report_cop_line _ _ _ _ (design_stdout duty) Hok Hin)
    as (sol & Hsol & Hp & ->).
  exists sol. split; [exact Hsol|].
  exact (div_abs_negative _ _ Hp Hneg).
Qed.

Lemma negative_cop_needs_negative_power_witness :
  script 1000 reversed_cycle empty_state
  = Ok tt (final_state (script 1000 reversed_cycle empty_state))
  /\ FString "COP = " (-4) ∈ stdout (final_state (script 1000 reversed_cycle empty_state))
  /\ PrimFloat.ltb (-4) 0 = true
  /\ exists sol, design_request reversed_cycle 1000 = Solved sol
       /\ PrimFloat.ltb (read_val (write_back sol (design_state 1000)) (cp handles) "P") 0
          = true.
Proof.
  assert (H1 : script 1000 reversed_cycle empty_state
               = Ok tt (final_state (script 1000 reversed_cycle empty_state)))
    by (vm_compute; reflexivity).
  assert (H2 : FString "COP = " (-4)
               ∈ stdout (final_state (script 1000 reversed_cycle empty_state)))
    by (vm_compute; repeat constructor).
  split; [exact H1|]. split; [exact H2|]. split; [reflexivity|].
  exact (negative_cop_needs_negative_power 1000 reversed_cycle _ (-4) H1 H2 eq_refl).
Defined.

(** X2: the run ends in [ZeroDivisionError] exactly when the solve returned
    and left the compressor power at [+0.0] or [-0.0]; no other value of the
    power, infinite or NaN, makes line 46 raise. *)
Theorem zero_division_iff_signed_zero (duty : float) (lib : Library) :
  (exists st, script duty lib empty_state = Raise ZeroDivisionError st)
  <-> exists sol s,
        design_request lib duty = Solved sol
        /\ Prim2SF (read_val (write_back sol (design_state duty)) (cp handles) "P")
           = S754_zero s.
Proof.
  rewrite script_cases. unfold report_of. split.
  - intros [st Hst]. destruct (design_request lib duty) as [sol|e]; [|discriminate].
    destruct (PrimFloat.eqb (read_val (write_back sol (design_state duty)) (cp handles) "P") 0)
      eqn:Hp; [|discriminate].
    apply eqb_zero_iff in Hp as [s Hs]. eauto.
  - intros (sol & s & -> & Hs).
    assert (Hp : PrimFloat.eqb
                   (read_val (write_back sol (design_state duty)) (cp handles) "P") 0 = true)
      by (apply eqb_zero_iff; eauto).
    rewrite Hp. eauto.
Qed.

(** X3: a compressor power that the solve leaves as NaN does not stop the
    program: the run completes, and the COP it prints after the report is
    NaN. *)
Theorem nan_power_prints_nan (duty : float) (lib : Library) (sol : Solution) :
  design_request lib duty = Solved sol ->
  Prim2SF (read_val (write_back sol (design_state duty)) (cp handles) "P") = S754_nan ->
  script duty lib empty_state
  = Ok tt (emit (FString "COP = " (cop (write_back sol (design_state duty))))
             (reported (write_back sol (design_state duty))))
  /\ Prim2SF (cop (write_back sol (design_state duty))) = S754_nan.
Proof.
  intros Hsol Hnan. rewrite script_cases, Hsol. unfold report_of.
  rewrite (eqb_nan _ Hnan). split; [reflexivity|].
  unfold cop. now apply div_nan.
Qed.

Lemma nan_power_prints_nan_witness :
  design_request undefined_power (-1000) = Solved (power_solution nan)
  /\ Prim2SF (read_val (write_back (power_solution nan) (design_state (-1000)))
                (cp handles) "P") = S754_nan
  /\ script (-1000) undefined_power empty_state
     = Ok tt (emit (FString "COP = "
                      (cop (write_back (power_solution nan) (design_state (-1000)))))
                (reported (write_back (power_solution nan) (design_state (-1000)))))
  /\ Prim2SF (cop (write_back (power_solution nan) (design_state (-1000)))) = S754_nan.
Proof.
  assert (Hnan : Prim2SF (read_val (write_back (power_solution nan) (design_state (-1000)))
                            (cp handles) "P") = S754_nan)
    by (vm_compute; reflexivity).
  split; [reflexivity|]. split; [exact Hnan|].
  exact (nan_power_prints_nan (-1000) undefined_power (power_solution nan) eq_refl Hnan).
Defined.

(** X5: the COP printed is the absolute value of the duty set on line 36
    over the compressor power the solve returned, whenever that power is
    a number other than zero and the solve does not itself return a [Q]
    for the condenser. *)
Theorem cop_is_abs_duty_over_power
    (duty : float) (lib : Library) (sol : Solution) (power : float) :
  design_request lib duty = Solved sol ->
  operation_values sol (co handles) !! "Q" = None ->
  operation_values sol (cp handles) !! "P" = Some (Num power) ->
  PrimFloat.eqb power 0 = false ->
  script duty lib empty_state
  = Ok tt (emit (FString "COP = " (PrimFloat.div (PrimFloat.abs duty) power))
             (reported (write_back sol (design_state duty)))).
Proof.
  intros Hsol HQ HP Hp. rewrite script_cases, Hsol. unfold report_of.
  assert (Hq : read_val (write_back sol (design_state duty)) (co handles) "Q" = duty).
  { unfold read_val, write_back; cbn [components].
    rewrite list_lookup_imap.
    assert (Hco : exists o, components (design_state duty) !! co handles = Some o
                            /\ comp_attrs o !! "Q" = Some (Num duty))
      by (eexists; split; vm_compute; reflexivity).
    destruct Hco as (o & -> & Ho). cbn [fmap option_fmap option_map].
    unfold attr_val, set_comp_attrs; cbn [comp_attrs].
    now rewrite lookup_union_r, Ho. }
  assert (Hpw : read_val (write_back sol (design_state duty)) (cp handles) "P" = power).
  { unfold read_val, write_back; cbn [components].
    rewrite list_lookup_imap.
    destruct (design_compressor duty) as [o ->]. cbn [fmap option_fmap option_map].
    unfold attr_val, set_comp_attrs; cbn [comp_attrs].
    now rewrite (lookup_union_Some_l _ _ _ _ HP). }
  unfold cop. now rewrite Hq, Hpw, Hp.
Qed.

Lemma cop_is_abs_duty_over_power_witness :
  design_request steady_library (-1000) = Solved (power_solution 250)
  /\ operation_values (power_solution 250) (co handles) !! "Q" = None
  /\ operation_values (power_solution 250) (cp handles) !! "P" = Some (Num 250)
  /\ PrimFloat.eqb 250 0 = false
  /\ script (-1000) steady_library empty_state
     = Ok tt (emit (FString "COP = " (PrimFloat.div (PrimFloat.abs (-1000)) 250))
                (reported (write_back (power_solution 250) (design_state (-1000))))).
Proof.
  assert (HQ : operation_values (power_solution 250) (co handles) !! "Q" = None)
    by (vm_compute; reflexivity).
  assert (HP : operation_values (power_solution 250) (cp handles) !! "P" = Some (Num 250))
    by (vm_compute; reflexivity).
  split; [reflexivity|]. split; [exact HQ|]. split; [exact HP|]. split; [reflexivity|].
  exact (cop_is_abs_duty_over_power (-1000) steady_library (power_solution 250) 250
           eq_refl HQ HP eq_refl).
Defined.

(** ** The order of lines 36-41 *)

Lemma configure_in_order duty h st :
  in_order (statements duty h) st = configure duty h st.
Proof.
  unfold configure, statements, in_order, set_attr, bind, ret.
  repeat match goal with
         | |- context [match ?m st with _ => _ end] => destruct (m st) as [[]|]; try reflexivity
         | |- context [match ?m ?s with Ok _ _ => _ | Raise _ _ => _ end] =>
             destruct (m s) as [[]|]; try reflexivity
         end.
Qed.

Lemma set_attr_bound s st :
  bound st s -> set_attr s st = Ok tt (final_state (set_attr s st)).
Proof.
  destruct s as [c kw|c kw]; cbn [bound set_attr]; intros Hb;
    apply lookup_lt_is_Some_2 in Hb as [o Ho];
    [unfold comp_set_attr|unfold conn_set_attr]; now rewrite Ho.
Qed.

Lemma set_attr_keeps_bound s s' st :
  bound st s' -> bound (final_state (set_attr s st)) s'.
Proof.
  destruct s as [c kw|c kw], s' as [c' kw'|c' kw']; cbn [bound set_attr];
    [unfold comp_set_attr; destruct (components st !! c)
    |unfold comp_set_attr; destruct (components st !! c)
    |unfold conn_set_attr; destruct (connections st !! c)
    |unfold conn_set_attr; destruct (connections st !! c)];
    cbn [final_state components connections]; rewrite ?length_insert; auto.
Qed.

Lemma set_attr_swap s s' st :
  addressed s <> addressed s' -> bound st s -> bound st s' ->
  final_state (set_attr s' (final_state (set_attr s st)))
  = final_state (set_attr s (final_state (set_attr s' st))).
Proof.
  destruct s as [c kw|c kw], s' as [c' kw'|c' kw']; cbn [addressed bound set_attr];
    intros Hne Hb Hb';
    apply lookup_lt_is_Some_2 in Hb as [o Ho];
    apply lookup_lt_is_Some_2 in Hb' as [o' Ho'];
    unfold comp_set_attr, conn_set_attr; rewrite ?Ho, ?Ho';
    cbn [final_state components connections networks stdout]; rewrite ?Ho, ?Ho'.
  - assert (c <> c') by congruence.
    rewrite !list_lookup_insert_ne, Ho, Ho' by congruence.
    cbn [final_state components connections networks stdout].
    f_equal. apply list_insert_insert_ne. congruence.
  - reflexivity.
  - reflexivity.
  - assert (c <> c') by congruence.
    rewrite !list_lookup_insert_ne, Ho, Ho' by congruence.
    cbn [final_state components connections networks stdout].
    f_equal. apply list_insert_insert_ne. congruence.
Qed.

(** Statements on distinct bound objects can be run in any order. *)
Lemma in_order_permutation l l' :
  l ≡ₚ l' ->
  forall st, NoDup (addressed <$> l) -> Forall (bound st) l ->
  in_order l st = in_order l' st.
Proof.
  induction 1 as [|x l l' Hp IH|x y l|l l' l'' Hp IH Hp' IH']; intros st Hnd Hb.
  - reflexivity.
  - cbn [in_order]. unfold bind.
    rewrite fmap_cons in Hnd. apply NoDup_cons in Hnd as [_ Hnd].
    apply Forall_cons in Hb as [Hx Hb].
    rewrite (set_attr_bound x st Hx). apply IH; [exact Hnd|].
    eapply Forall_impl; [exact Hb|]. intros s'. apply set_attr_keeps_bound.
  - cbn [in_order]. unfold bind.
    rewrite !fmap_cons in Hnd. apply NoDup_cons in Hnd as [Hne _].
    apply not_elem_of_cons in Hne as [Hne _].
    apply Forall_cons in Hb as [Hy Hb]. apply Forall_cons in Hb as [Hx _].
    rewrite (set_attr_bound y st Hy), (set_attr_bound x st Hx).
    rewrite (set_attr_bound x _ (set_attr_keeps_bound y x st Hx)).
    rewrite (set_attr_bound y _ (set_attr_keeps_bound x y st Hy)).
    now rewrite (set_attr_swap y x st Hne Hy Hx).
  - rewrite (IH st Hnd Hb). apply IH'.
    + now rewrite <- Hp.
    + now rewrite <- Hp.
Qed.

(** X7: the five [set_attr] statements of lines 36-41 address five
    different objects, so their order does not matter: run in any order,
    from any state in which the variables are bound to distinct
    components and connections, they leave the state [configure] leaves. *)
Theorem configure_order_irrelevant
    (duty : float) (h : Handles) (l : list SetAttr) (st : State) :
  l ≡ₚ statements duty h ->
  NoDup (addressed <$> statements duty h) ->
  Forall (bound st) (statements duty h) ->
  in_order l st = configure duty h st.
Proof.
  intros Hp Hnd Hb. rewrite <- configure_in_order.
  apply in_order_permutation; [exact Hp| |].
  - now rewrite Hp.
  - now rewrite Hp.
Qed.

Lemma configure_order_irrelevant_witness :
  reverse (statements (-1000) handles) ≡ₚ statements (-1000) handles
  /\ NoDup (addressed <$> statements (-1000) handles)
  /\ Forall (bound built) (statements (-1000) handles)
  /\ in_order (reverse (statements (-1000) handles)) built
     = configure (-1000) handles built.
Proof.
  assert (Hp : reverse (statements (-1000) handles) ≡ₚ statements (-1000) handles)
    by apply reverse_Permutation.
  assert (Hnd : NoDup (addressed <$> statements (-1000) handles))
    by (apply (bool_decide_unpack _); vm_compute; reflexivity).
  assert (Hb : Forall (bound built) (statements (-1000) handles))
    by (repeat constructor; vm_compute; lia).
  split; [exact Hp|]. split; [exact Hnd|]. split; [exact Hb|].
  exact (configure_order_irrelevant (-1000) handles _ built Hp Hnd Hb).
Defined.

(** ** The network object after line 33 *)

Lemma bind_keeps_networks {A B} (m : M A) (k : A -> M B) :
  keeps_networks m -> (forall a, keeps_networks (k a)) -> keeps_networks (bind m k).
Proof.
  intros Hm Hk st. unfold bind. specialize (Hm st).
  destruct (m st) as [a st'|e st']; cbn [final_state] in Hm.
  - now rewrite Hk.
  - exact Hm.
Qed.

Lemma set_attr_keeps_networks s : keeps_networks (set_attr s).
Proof.
  intros st. destruct s as [c kw|c kw]; cbn [set_attr].
  - unfold comp_set_attr. now destruct (components st !! c).
  - unfold conn_set_attr. now destruct (connections st !! c).
Qed.

Lemma configure_keeps_networks duty h : keeps_networks (configure duty h).
Proof.
  unfold configure.
  repeat (apply bind_keeps_networks; [|intros _]);
    first [apply (set_attr_keeps_networks (OnComponent _ _))
          |apply (set_attr_keeps_networks (OnConnection _ _))].
Qed.

Lemma solve_and_report_keeps_networks lib h : keeps_networks (solve_and_report lib h).
Proof.
  unfold solve_and_report, print_cop.
  apply bind_keeps_networks; [|intros _].
  { intros st. unfold solve. destruct (networks st !! my_plant h); [|reflexivity].
    now destruct (lib_solve lib st (my_plant h) "design"). }
  apply bind_keeps_networks; [|intros _].
  { intros st. unfold print_results. now destruct (networks st !! my_plant h). }
  apply bind_keeps_networks; [|intros q].
  { intros st. unfold val. now destruct (components st !! co h). }
  apply bind_keeps_networks; [|intros pw].
  { intros st. unfold val. now destruct (components st !! cp h). }
  apply bind_keeps_networks; [|intros v].
  { intros st. unfold truediv. now destruct (PrimFloat.eqb pw 0). }
  now intros st.
Qed.

(** X8: the network object is settled by lines 8-33.  Lines 36-46 change
    no network, from any state and whatever the solver answers; so every run
    ends with the one network of the script, carrying the unit defaults
    of lines 11-13 and the connections in the order of line 33. *)
Theorem network_settled_by_construction (duty : float) (lib : Library) :
  (forall h, keeps_networks (configure duty h ;; solve_and_report lib h))
  /\ networks (final_state (script duty lib empty_state))
     = [mkNetwork unit_defaults
          [c0 handles; c1 handles; c2 handles; c3 handles; c4 handles]].
Proof.
  assert (Hk : forall h, keeps_networks (configure duty h ;; solve_and_report lib h)).
  { intros h. apply bind_keeps_networks; [apply configure_keeps_networks|intros _].
    apply solve_and_report_keeps_networks. }
  split; [exact Hk|].
  rewrite script_unfold.
  rewrite (solve_and_report_keeps_networks lib handles (design_state duty)).
  change (design_state duty) with (final_state (configure duty handles built)).
  rewrite (configure_keeps_networks duty handles built).
  vm_compute. reflexivity.
Qed.

(** ** Construction in a heap that already holds objects *)

Lemma lookup_fresh {A} (l k : list A) (i : nat) :
  (l ++ k) !! (length l + i) = k !! i.
Proof. rewrite lookup_app_r by lia. f_equal. lia. Qed.

Lemma insert_fresh {A} (l k : list A) (i : nat) (x : A) :
  <[length l + i := x]> (l ++ k) = l ++ <[i := x]> k.
Proof. rewrite insert_app_r_alt by lia. do 2 f_equal. lia. Qed.

Lemma insert_last {A} (l : list A) (x y : A) :
  <[length l := x]> (l ++ [y]) = l ++ [x].
Proof. rewrite insert_app_r_alt by lia. now rewrite Nat.sub_diag. Qed.

Lemma unit_defaults_set :
  foldl (fun (m : gmap string string) (kv : string * string) => <[kv.1 := kv.2]> m) ∅
    [("temperature", "degC"); ("pressure", "bar"); ("enthalpy", "kJ/kg");
     ("heat", "kW"); ("power", "kW")]
  = unit_defaults.
Proof. vm_compute. reflexivity. Qed.

(** Lines 8-33 allocate behind the objects of the heap. *)
Lemma build_fresh cs ks ns out :
  build (mkState cs ks ns out)
  = Ok (mkHandles (length ns)
          (length cs) (length cs + 1) (length cs + 2) (length cs + 3) (length cs + 4)
          (length ks) (length ks + 1) (length ks + 2) (length ks + 3) (length ks + 4))
       (mkState
          (cs ++ [mkComponent CycleCloser "cycle closer" ∅;
                  mkComponent SimpleHeatExchanger "condensor" ∅;
                  mkComponent SimpleHeatExchanger "evaporater" ∅;
                  mkComponent Valve "expansion valve" ∅;
                  mkComponent Compressor "compressor" ∅])
          (ks ++ [mkConnection (length cs) "out1" (length cs + 2) "in1" "1" ∅;
                  mkConnection (length cs + 2) "out1" (length cs + 4) "in1" "2" ∅;
                  mkConnection (length cs + 4) "out1" (length cs + 1) "in1" "3" ∅;
                  mkConnection (length cs + 1) "out1" (length cs + 3) "in1" "4" ∅;
                  mkConnection (length cs + 3) "out1" (length cs) "in1" "0" ∅])
          (ns ++ [mkNetwork unit_defaults
                    [length ks + 4; length ks; length ks + 1; length ks + 2;
                     length ks + 3]])
          out).
Proof.
  unfold build.
  unfold bind at 1. cbn [new_network networks components connections stdout].
  unfold bind at 1. unfold set_defaults at 1.
  cbn [networks components connections stdout].
  rewrite list_lookup_middle by reflexivity.
  rewrite insert_last. cbn [units conns].
  do 10 (unfold bind at 1;
         cbn [new_component new_connection networks components connections stdout]).
  unfold bind at 1. unfold add_conns. cbn [networks components connections stdout].
  rewrite list_lookup_middle by reflexivity. cbn [ret].
  rewrite insert_last. cbn [units conns].
  rewrite !length_app. cbn [length]. rewrite <- !app_assoc. cbn [app].
  rewrite <- !Nat.add_assoc. cbn [Nat.add].
  rewrite unit_defaults_set. reflexivity.
Qed.

(** X9: lines 8-41 in a heap that already holds objects.  The
    construction and the [set_attr] calls succeed from any state, the
    objects that were there are left as they were, nothing is printed, and
    the five components, five connections and one network of the script
    are new. *)
Theorem setup_leaves_existing_objects (duty : float) (st0 : State) :
  exists h st1 st,
    build st0 = Ok h st1
    /\ configure duty h st1 = Ok tt st
    /\ take (length (components st0)) (components st) = components st0
    /\ take (length (connections st0)) (connections st) = connections st0
    /\ take (length (networks st0)) (networks st) = networks st0
    /\ length (components st) = length (components st0) + 5
    /\ length (connections st) = length (connections st0) + 5
    /\ length (networks st) = length (networks st0) + 1
    /\ stdout st = stdout st0.
Proof.
  destruct st0 as [cs ks ns out].
  eexists _, _, _. split; [apply build_fresh|].
  cbn [components connections networks stdout].
  split.
  - unfold configure. cbn [co ev cp c2 c4].
    do 3 (unfold bind at 1; unfold comp_set_attr at 1;
          cbn [components connections networks stdout];
          rewrite lookup_fresh; cbn [lookup list_lookup];
          rewrite insert_fresh; cbn [insert list_insert]).
    unfold bind at 1; unfold conn_set_attr at 1;
      cbn [components connections networks stdout];
      rewrite lookup_fresh; cbn [lookup list_lookup];
      rewrite insert_fresh; cbn [insert list_insert].
    unfold conn_set_attr; cbn [components connections networks stdout];
      rewrite lookup_fresh; cbn [lookup list_lookup];
      rewrite insert_fresh; cbn [insert list_insert].
    reflexivity.
  - cbn [components connections networks stdout].
    rewrite !take_app_length, !length_app. cbn [length].
    repeat split; reflexivity.
Qed.

(** ** The sign of the printed COP *)

Lemma SFdiv_abs_positive a b :
  SFltb (S754_zero false) b = true ->
  SFltb (SFdiv prec emax (SFabs a) b) (S754_zero false) = false.
Proof.
  destruct a as [sa|sa| |sa ma ea], b as [[]|[]| |[] mb eb];
    try (intros _; reflexivity); try (intros H; discriminate H).
  cbn [SFabs SFdiv xorb]. intros _.
  destruct (SFdiv_core_binary prec emax (Z.pos ma) ea (Z.pos mb) eb) as [[mz ez] lz].
  pose proof (binary_round_aux_sign prec emax false mz ez lz) as H.
  destruct (binary_round_aux prec emax false mz ez lz) as [s|s| |s mm ee];
    try reflexivity; subst s; reflexivity.
Qed.

Lemma ltb_zero_not_eqb p : PrimFloat.ltb 0 p = true -> PrimFloat.eqb p 0 = false.
Proof.
  rewrite FloatAxioms.eqb_spec, FloatAxioms.ltb_spec.
  change (Prim2SF 0) with (S754_zero false).
  destruct (Prim2SF p) as [s|[]| |[] m e]; cbn; congruence.
Qed.

(** X10: [abs] erases the sign of the duty.  With a solved compressor
    power above zero the run completes and the COP it prints is not
    negative, whatever duty line 36 sets. *)
Theorem positive_power_cop_not_negative
    (duty : float) (lib : Library) (sol : Solution) :
  design_request lib duty = Solved sol ->
  PrimFloat.ltb 0 (read_val (write_back sol (design_state duty)) (cp handles) "P") = true ->
  script duty lib empty_state
  = Ok tt (emit (FString "COP = " (cop (write_back sol (design_state duty))))
             (reported (write_back sol (design_state duty))))
  /\ PrimFloat.ltb (cop (write_back sol (design_state duty))) 0 = false.
Proof.
  intros Hsol Hp. rewrite script_cases, Hsol. unfold report_of.
  rewrite (ltb_zero_not_eqb _ Hp). split; [reflexivity|].
  unfold cop. revert Hp.
  rewrite !FloatAxioms.ltb_spec, FloatAxioms.div_spec, FloatAxioms.abs_spec.
  change (Prim2SF 0) with (S754_zero false).
  apply SFdiv_abs_positive.
Qed.

Lemma positive_power_cop_not_negative_witness :
  design_request steady_library 1000 = Solved (power_solution 250)
  /\ PrimFloat.ltb 0 (read_val (write_back (power_solution 250) (design_state 1000))
                        (cp handles) "P") = true
  /\ script 1000 steady_library empty_state
     = Ok tt (emit (FString "COP = " (cop (write_back (power_solution 250) (design_state 1000))))
                (reported (write_back (power_solution 250) (design_state 1000))))
  /\ PrimFloat.ltb (cop (write_back (power_solution 250) (design_state 1000))) 0 = false.
Proof.
  assert (Hp : PrimFloat.ltb 0 (read_val (write_back (power_solution 250) (design_state 1000))
                                  (cp handles) "P") = true)
    by (vm_compute; reflexivity).
  split; [reflexivity|]. split; [exact Hp|].
  exact (positive_power_cop_not_negative 1000 steady_library (power_solution 250)
           eq_refl Hp).
Defined.

(** ** The order of the output *)


